(** * Users admin screen (src/modules/Users.jsx)

    A shallow embedding of the [Users] React component and of the
    functions it receives through [mapDispatchToProps], followed by the
    properties of its dialog handling.

    - JavaScript values that may be [null] or [undefined] are [option]s.
    - The component's local state is a record; [setState] merges a partial
      state (a list of key updates) into it, as React does.
    - [dispatch] is an effect: the dispatch layer is a writer of actions
      that may throw, the component handlers thread the local state on top.
    - The REST client and the store are the environment: a dispatched
      request carries its completion callback, and the environment decides
      when it completes and with which outcome. *)

From Stdlib Require Import String Ascii List Bool ZArith Lia.
Import ListNotations.
Local Open Scope string_scope.
Local Open Scope list_scope.

Set Implicit Arguments.
Set Warnings "-register-all".

(** ** Data *)

(** A user record as served by the REST API ([this.props.users.data]). *)
Module User.
Record t : Type := mk
  { id : Z;
    email : string;
    scope : string;
    active : bool;
    description : string }.
End User.

(** The JavaScript values that the component builds as request payloads. *)
Inductive JsVal : Type :=
| JNull
| JBool (b : bool)
| JStr (s : string)
| JObj (fields : list (string * JsVal)).

(** [{ body: JSON.stringify(v) }]: the serialisation is kept symbolic. *)
Inductive Body : Type :=
| JSON_stringify (v : JsVal).

(** What the REST client hands to a completion callback. *)
Inductive Outcome : Type :=
| Success
| Failure.

(** The action creators of [rest.actions] used by this file.  A mutating
    request takes its completion callback as last argument; a callback is
    the list of actions that it dispatches once it is run. *)
Inductive Action : Type :=
| rest_users
| rest_userDetails (userId : Z)
| rest_userDetails_delete (userId : Z) (callback : Outcome -> list Action)
| rest_banUser (userId : Z) (body : Body) (callback : Outcome -> list Action)
| rest_userDetails_patch (userId : Z) (body : Body)
    (callback : Outcome -> list Action).

Definition callback_of (a : Action) : option (Outcome -> list Action) :=
  match a with
  | rest_users => None
  | rest_userDetails _ => None
  | rest_userDetails_delete _ cb => Some cb
  | rest_banUser _ _ cb => Some cb
  | rest_userDetails_patch _ _ cb => Some cb
  end.

Definition is_refresh (a : Action) : bool :=
  match a with
  | rest_users => true
  | _ => false
  end.

Definition is_mutation (a : Action) : bool :=
  match callback_of a with
  | Some _ => true
  | None => false
  end.

(** Number of user-list requests among some dispatched actions. *)
Definition refreshes (l : list Action) : nat :=
  List.length (List.filter is_refresh l).

(** ** Effects of the dispatch layer *)

Inductive Exn : Type :=
| TypeError.

Inductive Result (A : Type) : Type :=
| Ok (a : A)
| Throw (e : Exn).

Arguments Ok {A} a.
Arguments Throw {A} e.

(** Actions dispatched so far, and how the call ended. *)
Definition M (A : Type) : Type := (list Action * Result A)%type.

Definition retM {A} (a : A) : M A := ([], Ok a).

Definition bindM {A B} (m : M A) (k : A -> M B) : M B :=
  match m with
  | (w, Ok a) => let (w', r) := k a in (w ++ w', r)
  | (w, Throw e) => (w, Throw e)
  end.

Definition dispatch (a : Action) : M unit := ([a], Ok tt).

Definition throwM {A} (e : Exn) : M A := ([], Throw e).

(** [user.id] on a value that may be [null]. *)
Definition get_id (user : option User.t) : M Z :=
  match user with
  | Some u => retM (User.id u)
  | None => throwM TypeError
  end.

Declare Scope m_scope.
Delimit Scope m_scope with M.
Notation "x <- m ;; k" := (bindM m (fun x => k))
  (at level 61, m at next level, right associativity) : m_scope.
Notation "m ;; k" := (bindM m (fun _ => k))
  (at level 61, right associativity) : m_scope.

(** ** Local state of the component *)

Record Expire : Type :=
  { amount : string;
    indicator : string }.

Record BanInfo : Type :=
  { reason : string;
    expire : Expire }.

(** The keys of [this.state].  The initial object has a key
    [openScopeModal] and no key [scopeDialogOpen]; the latter is written
    and read by the scope dialog, so it is [None] (undefined) until it is
    first set. *)
Record State : Type :=
  { dialogOpen : bool;
    deleteUserDialogOpen : bool;
    banUserDialogOpen : bool;
    openScopeModal : bool;
    scopeDialogOpen : option bool;
    tempUserForDialogs : option User.t;
    scope : option string;
    banInfo : BanInfo }.

(** One [key: value] pair of an object given to [setState]. *)
Inductive Update : Type :=
| Set_dialogOpen (b : bool)
| Set_deleteUserDialogOpen (b : bool)
| Set_banUserDialogOpen (b : bool)
| Set_scopeDialogOpen (b : bool)
| Set_tempUserForDialogs (u : option User.t)
| Set_scope (v : option string)
| Set_banInfo (b : BanInfo).

Definition assign (u : Update) (s : State) : State :=
  match u with
  | Set_dialogOpen b =>
      {| dialogOpen := b;
         deleteUserDialogOpen := deleteUserDialogOpen s;
         banUserDialogOpen := banUserDialogOpen s;
         openScopeModal := openScopeModal s;
         scopeDialogOpen := scopeDialogOpen s;
         tempUserForDialogs := tempUserForDialogs s;
         scope := scope s;
         banInfo := banInfo s |}
  | Set_deleteUserDialogOpen b =>
      {| dialogOpen := dialogOpen s;
         deleteUserDialogOpen := b;
         banUserDialogOpen := banUserDialogOpen s;
         openScopeModal := openScopeModal s;
         scopeDialogOpen := scopeDialogOpen s;
         tempUserForDialogs := tempUserForDialogs s;
         scope := scope s;
         banInfo := banInfo s |}
  | Set_banUserDialogOpen b =>
      {| dialogOpen := dialogOpen s;
         deleteUserDialogOpen := deleteUserDialogOpen s;
         banUserDialogOpen := b;
         openScopeModal := openScopeModal s;
         scopeDialogOpen := scopeDialogOpen s;
         tempUserForDialogs := tempUserForDialogs s;
         scope := scope s;
         banInfo := banInfo s |}
  | Set_scopeDialogOpen b =>
      {| dialogOpen := dialogOpen s;
         deleteUserDialogOpen := deleteUserDialogOpen s;
         banUserDialogOpen := banUserDialogOpen s;
         openScopeModal := openScopeModal s;
         scopeDialogOpen := Some b;
         tempUserForDialogs := tempUserForDialogs s;
         scope := scope s;
         banInfo := banInfo s |}
  | Set_tempUserForDialogs u =>
      {| dialogOpen := dialogOpen s;
         deleteUserDialogOpen := deleteUserDialogOpen s;
         banUserDialogOpen := banUserDialogOpen s;
         openScopeModal := openScopeModal s;
         scopeDialogOpen := scopeDialogOpen s;
         tempUserForDialogs := u;
         scope := scope s;
         banInfo := banInfo s |}
  | Set_scope v =>
      {| dialogOpen := dialogOpen s;
         deleteUserDialogOpen := deleteUserDialogOpen s;
         banUserDialogOpen := banUserDialogOpen s;
         openScopeModal := openScopeModal s;
         scopeDialogOpen := scopeDialogOpen s;
         tempUserForDialogs := tempUserForDialogs s;
         scope := v;
         banInfo := banInfo s |}
  | Set_banInfo b =>
      {| dialogOpen := dialogOpen s;
         deleteUserDialogOpen := deleteUserDialogOpen s;
         banUserDialogOpen := banUserDialogOpen s;
         openScopeModal := openScopeModal s;
         scopeDialogOpen := scopeDialogOpen s;
         tempUserForDialogs := tempUserForDialogs s;
         scope := scope s;
         banInfo := b |}
  end.

(** The shallow merge done by [setState]. *)
Definition merge (partial : list Update) (s : State) : State :=
  fold_left (fun acc u => assign u acc) partial s.

(** JavaScript truthiness of a flag that may be undefined. *)
Definition truthy (v : option bool) : bool :=
  match v with
  | Some b => b
  | None => false
  end.

(** ** Effects of the component's handlers *)

(** A handler reads and updates [this.state], dispatches through the
    props and may throw; the state reached when it throws is kept. *)
Definition Comp (A : Type) : Type := State -> (State * list Action * Result A)%type.

Definition ret {A} (a : A) : Comp A := fun s => (s, [], Ok a).

Definition bind {A B} (m : Comp A) (k : A -> Comp B) : Comp B :=
  fun s =>
    match m s with
    | (s1, w, Ok a) =>
        match k a s1 with
        | (s2, w', r) => (s2, w ++ w', r)
        end
    | (s1, w, Throw e) => (s1, w, Throw e)
    end.

Definition this_state : Comp State := fun s => (s, [], Ok s).

Definition setState (partial : list Update) : Comp unit :=
  fun s => (merge partial s, [], Ok tt).

(** A call of one of the props made by [mapDispatchToProps]. *)
Definition call {A} (m : M A) : Comp A := fun s => (s, fst m, snd m).

Declare Scope comp_scope.
Delimit Scope comp_scope with comp.
Notation "x <- m ;; k" := (bind m (fun x => k))
  (at level 61, m at next level, right associativity) : comp_scope.
Notation "m ;; k" := (bind m (fun _ => k))
  (at level 61, right associativity) : comp_scope.

(** ** mapDispatchToProps *)

Module mapDispatchToProps.
Local Open Scope m_scope.

(** The callback given to every mutating request:
    [() => { dispatch(rest.actions.users()); }]. *)
Definition on_complete : Outcome -> list Action :=
  fun _ => fst (dispatch rest_users).

(** Refresh the user list. *)
Definition refresh : M unit :=
  dispatch rest_users.

(** Refresh a specific user. *)
Definition refreshUser (user : option User.t) : M unit :=
  userId <- get_id user ;;
  dispatch (rest_userDetails userId).

(** Delete a specific user. *)
Definition deleteUser (user : option User.t) : M unit :=
  userId <- get_id user ;;
  dispatch (rest_userDetails_delete userId on_complete).

(** Ban the user: [info] is built first, then the request. *)
Definition banUser (user : option User.t) (banInfo : BanInfo) : M unit :=
  let info :=
    JObj [ ("reason", JStr (reason banInfo));
           ("expire",
             JStr (if (amount (expire banInfo) =? "")
                      || (indicator (expire banInfo) =? "")
                   then "x"
                   else amount (expire banInfo) ++ ":"
                        ++ indicator (expire banInfo))) ] in
  userId <- get_id user ;;
  dispatch (rest_banUser userId (JSON_stringify info) on_complete).

(** General method to update the user. *)
Definition updateUser (user : option User.t) (update : JsVal) : M unit :=
  userId <- get_id user ;;
  dispatch (rest_userDetails_patch userId (JSON_stringify update) on_complete).
End mapDispatchToProps.

(** ** The component *)

(** The four [DialogWithButtons] of [renderDialogs], in source order:
    user details, delete user, ban user, change scope. *)
Inductive Dialog : Type :=
| Detail
| ConfirmDelete
| Ban
| ChangeScope.

Definition js_of_scope (v : option string) : JsVal :=
  match v with
  | Some x => JStr x
  | None => JNull
  end.

Module Users.
Import mapDispatchToProps.
Local Open Scope comp_scope.

(** Component initial state. *)
Definition state : State :=
  {| dialogOpen := false;
     deleteUserDialogOpen := false;
     banUserDialogOpen := false;
     openScopeModal := false;
     scopeDialogOpen := None;
     tempUserForDialogs := None;
     scope := None;
     banInfo := {| reason := ""; expire := {| amount := ""; indicator := "" |} |} |}.

(** Refresh user list when component is first mounted. *)
Definition componentDidMount : Comp unit :=
  call refresh.

(** Open the delete user modal. *)
Definition openDeleteModal (user : User.t) : Comp unit :=
  setState [ Set_deleteUserDialogOpen true;
             Set_tempUserForDialogs (Some user) ].

(** Open the ban user modal. *)
Definition openBanModal (user : User.t) : Comp unit :=
  setState [ Set_banUserDialogOpen true;
             Set_tempUserForDialogs (Some user) ].

Definition openScopeModal (user : User.t) (scope : string) : Comp unit :=
  setState [ Set_scopeDialogOpen true;
             Set_tempUserForDialogs (Some user);
             Set_scope (Some scope) ].

(** [renderUserBanDesc]: the two inputs of the ban dialog. *)
Definition expire_time_onChange (value : string) : Comp unit :=
  st <- this_state ;;
  setState [ Set_banInfo
               {| reason := reason (banInfo st);
                  expire := {| amount := value;
                               indicator := indicator (expire (banInfo st)) |} |} ].

Definition expire_indicator_onChange (value : string) : Comp unit :=
  st <- this_state ;;
  setState [ Set_banInfo
               {| reason := reason (banInfo st);
                  expire := {| amount := amount (expire (banInfo st));
                               indicator := value |} |} ].

(** [renderUserRow]: the controls of one row of the table. *)
Definition scope_onChange (user : User.t) (value : string) : Comp unit :=
  openScopeModal user value.

Definition active_onChange (user : User.t) (checked : bool) : Comp unit :=
  call (updateUser (Some user) (JObj [ ("active", JBool checked) ])).

Definition showUserDetails_onClick (user : User.t) : Comp unit :=
  call (refreshUser (Some user)) ;;
  setState [ Set_dialogOpen true ].

Definition deleteUser_onClick (user : User.t) : Comp unit :=
  openDeleteModal user.

Definition banUser_onClick (user : User.t) : Comp unit :=
  openBanModal user.

(** [renderDialogs]: the props [isOpen], [submit] and [close] of each
    dialog.  [value] is [data.value], the content of the dialog's text
    field. *)
Definition isOpen (d : Dialog) (s : State) : bool :=
  match d with
  | Detail => dialogOpen s
  | ConfirmDelete => deleteUserDialogOpen s
  | Ban => banUserDialogOpen s
  | ChangeScope => truthy (scopeDialogOpen s)
  end.

Definition submit (d : Dialog) (value : string) : Comp unit :=
  match d with
  | Detail =>
      setState [ Set_dialogOpen false ]
  | ConfirmDelete =>
      st <- this_state ;;
      call (deleteUser (tempUserForDialogs st)) ;;
      setState [ Set_tempUserForDialogs None;
                 Set_deleteUserDialogOpen false ]
  | Ban =>
      st <- this_state ;;
      setState [ Set_banInfo {| reason := value; expire := expire (banInfo st) |} ] ;;
      (* the callback of that setState *)
      st <- this_state ;;
      call (banUser (tempUserForDialogs st) (banInfo st)) ;;
      setState [ Set_tempUserForDialogs None;
                 Set_banInfo {| reason := "";
                                expire := {| amount := ""; indicator := "" |} |};
                 Set_banUserDialogOpen false ]
  | ChangeScope =>
      st <- this_state ;;
      call (updateUser (tempUserForDialogs st)
              (JObj [ ("scope", js_of_scope (scope st)) ])) ;;
      setState [ Set_scope None;
                 Set_scopeDialogOpen false;
                 Set_tempUserForDialogs None ]
  end.

Definition close (d : Dialog) : Comp unit :=
  match d with
  | Detail =>
      setState [ Set_dialogOpen false ]
  | ConfirmDelete =>
      setState [ Set_tempUserForDialogs None;
                 Set_deleteUserDialogOpen false ]
  | Ban =>
      setState [ Set_tempUserForDialogs None;
                 Set_banInfo {| reason := "";
                                expire := {| amount := ""; indicator := "" |} |};
                 Set_banUserDialogOpen false ]
  | ChangeScope =>
      setState [ Set_scope None;
                 Set_scopeDialogOpen false;
                 Set_tempUserForDialogs None ]
  end.
End Users.

(** ** The component in its environment *)

(** What the user can do on the rendered screen. *)
Inductive Input : Type :=
| Scope_onChange (user : User.t) (value : string)
| Active_onChange (user : User.t) (checked : bool)
| ShowUserDetails_onClick (user : User.t)
| DeleteUser_onClick (user : User.t)
| BanUser_onClick (user : User.t)
| Expire_time_onChange (value : string)
| Expire_indicator_onChange (value : string)
| Dialog_submit (d : Dialog) (value : string)
| Dialog_close (d : Dialog).

Definition handler (i : Input) : Comp unit :=
  match i with
  | Scope_onChange user value => Users.scope_onChange user value
  | Active_onChange user checked => Users.active_onChange user checked
  | ShowUserDetails_onClick user => Users.showUserDetails_onClick user
  | DeleteUser_onClick user => Users.deleteUser_onClick user
  | BanUser_onClick user => Users.banUser_onClick user
  | Expire_time_onChange value => Users.expire_time_onChange value
  | Expire_indicator_onChange value => Users.expire_indicator_onChange value
  | Dialog_submit d value => Users.submit d value
  | Dialog_close d => Users.close d
  end.

(** Modelled from the spec: the component [DialogWithButtons] lives in
    another file; the spec describes it as a generic modal dialog taking an
    open flag and submit/close callbacks.  So the rows of the table are
    always on screen, and the buttons and inputs of a dialog are on screen
    only while its [isOpen] prop is truthy. *)
Definition rendered (i : Input) (s : State) : bool :=
  match i with
  | Expire_time_onChange _ => Users.isOpen Ban s
  | Expire_indicator_onChange _ => Users.isOpen Ban s
  | Dialog_submit d _ => Users.isOpen d s
  | Dialog_close d => Users.isOpen d s
  | _ => true
  end.

(** The row controls that open a dialog. *)
Definition opens (i : Input) : bool :=
  match i with
  | Scope_onChange _ _ => true
  | ShowUserDetails_onClick _ => true
  | DeleteUser_onClick _ => true
  | BanUser_onClick _ => true
  | _ => false
  end.

Inductive Event : Type :=
| Ui (i : Input)
    (* the user acts on a control *)
| Completed (n : nat) (o : Outcome)
    (* the REST client finishes the n-th pending request *)
| Loaded (data : list User.t).
    (* the store receives a user list *)

(** [local] is [this.state], [users_data] is [this.props.users.data],
    [log] lists every dispatched action, oldest first, and [pending] holds
    the callbacks of the requests that have not completed. *)
Record World : Type :=
  { local : State;
    users_data : list User.t;
    log : list Action;
    pending : list (Outcome -> list Action) }.

Definition callbacks (l : list Action) : list (Outcome -> list Action) :=
  flat_map (fun a => match callback_of a with
                     | Some cb => [cb]
                     | None => []
                     end) l.

Definition mount (data : list User.t) : World :=
  match Users.componentDidMount Users.state with
  | (s, acts, _) =>
      {| local := s;
         users_data := data;
         log := acts;
         pending := callbacks acts |}
  end.

(** Modelled from the spec: the REST client ([utils/rest]) lives in another
    file; the spec says that each action creator supports a callback run
    when the remote call completes.  The n-th pending request completes:
    its callback runs once with the outcome and dispatches its actions. *)
Definition complete (n : nat) (o : Outcome) (w : World) : World :=
  match nth_error (pending w) n with
  | Some cb =>
      {| local := local w;
         users_data := users_data w;
         log := log w ++ cb o;
         pending := firstn n (pending w) ++ skipn (S n) (pending w)
                    ++ callbacks (cb o) |}
  | None => w
  end.

(** An event handler runs to its end on the state it finds; what it
    dispatched is logged, whether it returned or threw. *)
Definition step (e : Event) (w : World) : World :=
  match e with
  | Ui i =>
      if rendered i (local w) then
        match handler i (local w) with
        | (s, acts, _) =>
            {| local := s;
               users_data := users_data w;
               log := log w ++ acts;
               pending := pending w ++ callbacks acts |}
        end
      else w
  | Completed n o => complete n o w
  | Loaded data =>
      {| local := local w;
         users_data := data;
         log := log w;
         pending := pending w |}
  end.

Definition run_from (w : World) (tr : list Event) : World :=
  fold_left (fun acc e => step e acc) tr w.

(** The worlds reached from a fresh mount. *)
Definition run (data : list User.t) (tr : list Event) : World :=
  run_from (mount data) tr.

(** ** Dialog state *)

Definition open_count (s : State) : nat :=
  (if Users.isOpen Detail s then 1 else 0)
  + (if Users.isOpen ConfirmDelete s then 1 else 0)
  + (if Users.isOpen Ban s then 1 else 0)
  + (if Users.isOpen ChangeScope s then 1 else 0).

Definition is_default (b : BanInfo) : bool :=
  (reason b =? "") && (amount (expire b) =? "") && (indicator (expire b) =? "").

Definition is_some {A} (o : option A) : bool :=
  match o with
  | Some _ => true
  | None => false
  end.

(** The dialog state of the design: one variant at a time.  The detail
    variant carries no subject here, because the component keeps the user
    of the detail dialog in the store ([userDetails]) and not in
    [tempUserForDialogs]. *)
Module DialogState.
Inductive t : Type :=
| Closed
| Detail
| ConfirmDelete (subject : User.t)
| Ban (subject : User.t) (reason expireAmount expireUnit : string)
| ChangeScope (subject : User.t) (newScope : string).
End DialogState.

(** The variant that a local state stands for, if any. *)
Definition abs (s : State) : option DialogState.t :=
  match Users.isOpen Detail s, Users.isOpen ConfirmDelete s,
        Users.isOpen Ban s, Users.isOpen ChangeScope s with
  | false, false, false, false =>
      match tempUserForDialogs s, scope s with
      | None, None =>
          if is_default (banInfo s) then Some DialogState.Closed else None
      | _, _ => None
      end
  | true, false, false, false =>
      match tempUserForDialogs s, scope s with
      | None, None =>
          if is_default (banInfo s) then Some DialogState.Detail else None
      | _, _ => None
      end
  | false, true, false, false =>
      match tempUserForDialogs s, scope s with
      | Some u, None =>
          if is_default (banInfo s) then Some (DialogState.ConfirmDelete u)
          else None
      | _, _ => None
      end
  | false, false, true, false =>
      match tempUserForDialogs s, scope s with
      | Some u, None =>
          Some (DialogState.Ban u (reason (banInfo s))
                  (amount (expire (banInfo s)))
                  (indicator (expire (banInfo s))))
      | _, _ => None
      end
  | false, false, false, true =>
      match tempUserForDialogs s, scope s with
      | Some u, Some v =>
          if is_default (banInfo s) then Some (DialogState.ChangeScope u v)
          else None
      | _, _ => None
      end
  | _, _, _, _ => None
  end.

(** One dialog at a time: a row control that opens a dialog is used only
    while no dialog is open, as the modal overlay imposes. *)
Fixpoint modal (w : World) (tr : list Event) : bool :=
  match tr with
  | [] => true
  | e :: tr' =>
      match e with
      | Ui i => if opens i then (open_count (local w) =? 0)%nat else true
      | _ => true
      end && modal (step e w) tr'
  end.

(** What holds of the local state after any sequence of events: a pending
    subject, a pending scope and a filled ban form each belong to an open
    dialog. *)
Definition inv (s : State) : bool :=
  implb (is_some (tempUserForDialogs s))
        (Users.isOpen ConfirmDelete s || Users.isOpen Ban s
         || Users.isOpen ChangeScope s)
  && implb (is_some (scope s)) (Users.isOpen ChangeScope s)
  && implb (negb (is_default (banInfo s))) (Users.isOpen Ban s).

(** The three components of what a handler does in a local state. *)
Definition next (i : Input) (s : State) : State := fst (fst (handler i s)).
Definition emitted (i : Input) (s : State) : list Action := snd (fst (handler i s)).
Definition outcome (i : Input) (s : State) : Result unit := snd (handler i s).

(** The controls whose handler sends a mutating request. *)
Definition mutating (i : Input) : bool :=
  match i with
  | Active_onChange _ _ => true
  | Dialog_submit ConfirmDelete _ => true
  | Dialog_submit Ban _ => true
  | Dialog_submit ChangeScope _ => true
  | _ => false
  end.

(** The switch of a row shows [user.active]; using it reports the
    opposite value. *)
Definition active_toggle (user : User.t) : Input :=
  Active_onChange user (negb (User.active user)).

(** Two users to run the screen on. *)
Definition user1 : User.t :=
  {| User.id := 1; User.email := "a@x.com"; User.scope := "user";
     User.active := false; User.description := "" |}.

Definition user2 : User.t :=
  {| User.id := 2; User.email := "b@x.com"; User.scope := "admin";
     User.active := true; User.description := "" |}.

(** The dialog that a row control opens. *)
Definition target (i : Input) : option Dialog :=
  match i with
  | Scope_onChange _ _ => Some ChangeScope
  | ShowUserDetails_onClick _ => Some Detail
  | DeleteUser_onClick _ => Some ConfirmDelete
  | BanUser_onClick _ => Some Ban
  | _ => None
  end.

(** No dialog is open and nothing is left of a previous one. *)
Definition is_closed (s : State) : Prop :=
  (forall d, Users.isOpen d s = false)
  /\ tempUserForDialogs s = None
  /\ scope s = None
  /\ banInfo s = {| reason := ""; expire := {| amount := ""; indicator := "" |} |}.

(** The [userId] that a request names. *)
Definition userId_of (a : Action) : option Z :=
  match a with
  | rest_users => None
  | rest_userDetails userId => Some userId
  | rest_userDetails_delete userId _ => Some userId
  | rest_banUser userId _ _ => Some userId
  | rest_userDetails_patch userId _ _ => Some userId
  end.

(** Number of mutating requests among some dispatched actions. *)
Definition mutations (l : list Action) : nat :=
  List.length (List.filter is_mutation l).

(** The row control that opens a given dialog; [value] is the choice made
    in the scope selector. *)
Definition opener (d : Dialog) (user : User.t) (value : string) : Input :=
  match d with
  | Detail => ShowUserDetails_onClick user
  | ConfirmDelete => DeleteUser_onClick user
  | Ban => BanUser_onClick user
  | ChangeScope => Scope_onChange user value
  end.

(** The user that a row control stores in [tempUserForDialogs]. *)
Definition subject_of (i : Input) : option User.t :=
  match i with
  | Scope_onChange user _ => Some user
  | DeleteUser_onClick user => Some user
  | BanUser_onClick user => Some user
  | _ => None
  end.

(** The use of the scope selector of some row. *)
Definition is_scope_selection (e : Event) : bool :=
  match e with
  | Ui (Scope_onChange _ _) => true
  | _ => false
  end.

(** A string without the separator of the expiry token. *)
Fixpoint colon_free (s : string) : bool :=
  match s with
  | EmptyString => true
  | String c s' => negb (Ascii.eqb c ":"%char) && colon_free s'
  end.

(** What the log and the pending requests keep: every pending callback
    dispatches one refresh, and each refresh of the log is that of the
    mount or that of a completed mutation. *)
Definition accounted (w : World) : Prop :=
  Forall (fun cb : Outcome -> list Action => forall o, cb o = [rest_users])
         (pending w)
  /\ (refreshes (log w) + List.length (pending w) = 1 + mutations (log w))%nat.

(** * Properties *)

(** ** Case analysis on a local state *)

(** The tests on strings in the goal, decided either way. *)
Ltac split_strings :=
  repeat match goal with
    | |- context [String.eqb ?x ?y] => destruct (String.eqb x y)
    end.

(** The flags and nullable fields of a local state, enumerated. *)
Ltac split_state s :=
  destruct s as [dO dU bU oS [[|]|] [?|] [?|] [r [a i]]];
  destruct dO, dU, bU.

(** A handler run on a state whose shape is known. *)
Ltac run_handler :=
  unfold next, emitted, outcome, handler, rendered, inv, abs, is_default, open_count;
  cbn.

(** The empty strings found by the tests of the context. *)
Ltac empty_strings :=
  repeat match goal with
    | H : (_ =? "") = true |- _ => apply String.eqb_eq in H; subst
    end.

(** A goal about a closed state, field by field. *)
Ltac closed_goal :=
  repeat split;
  try match goal with
    | |- forall d : Dialog, _ => let d := fresh "d" in intros d; now destruct d
    end.

(** ** Invariants of the handlers *)

(** Every handler used on a control that is on screen preserves [inv]. *)
Lemma handler_inv (i : Input) (s : State) :
  rendered i s = true -> inv s = true -> inv (next i s) = true.
Proof.
  destruct i as [u v|u c|u|u|u|v|v|d v|d]; try destruct d;
    split_state s; run_handler; split_strings; cbn; intros; 
    solve [ reflexivity | discriminate ].
Qed.

(** With one dialog at a time every handler leads from a state that
    stands for a variant to a state that stands for one. *)
Lemma handler_abs (i : Input) (s : State) :
  rendered i s = true ->
  (opens i = true -> open_count s = 0%nat) ->
  is_some (abs s) = true ->
  is_some (abs (next i s)) = true.
Proof.
  destruct i as [u v|u c|u|u|u|v|v|d v|d]; try destruct d;
    split_state s; run_handler; split_strings; cbn; intros Hr Ho Ha;
    solve [ reflexivity | discriminate | specialize (Ho eq_refl); discriminate ].
Qed.

(** ** Steps and traces *)

Lemma local_step_ui (i : Input) (w : World) :
  local (step (Ui i) w) = if rendered i (local w) then next i (local w) else local w.
Proof.
  unfold step, next. destruct (rendered i (local w)); [|reflexivity].
  destruct (handler i (local w)) as [[s acts] r]. reflexivity.
Qed.

Lemma local_step_env (e : Event) (w : World) :
  (forall i, e <> Ui i) -> local (step e w) = local w.
Proof.
  intros He. destruct e as [i|n o|data]; cbn.
  - now elim (He i).
  - unfold complete. now destruct (nth_error (pending w) n).
  - reflexivity.
Qed.

Lemma step_inv (e : Event) (w : World) :
  inv (local w) = true -> inv (local (step e w)) = true.
Proof.
  intros Hi. destruct e as [i|n o|data].
  - rewrite local_step_ui. destruct (rendered i (local w)) eqn:Hr; [|exact Hi].
    now apply handler_inv.
  - rewrite local_step_env by discriminate. exact Hi.
  - exact Hi.
Qed.

Lemma run_from_inv (tr : list Event) :
  forall w, inv (local w) = true -> inv (local (run_from w tr)) = true.
Proof.
  induction tr as [|e tr IH]; intros w Hi; cbn.
  - exact Hi.
  - apply IH. now apply step_inv.
Qed.

Lemma run_inv (data : list User.t) (tr : list Event) :
  inv (local (run data tr)) = true.
Proof. apply run_from_inv. reflexivity. Qed.

Lemma run_from_modal (tr : list Event) :
  forall w,
    is_some (abs (local w)) = true ->
    modal w tr = true ->
    is_some (abs (local (run_from w tr))) = true.
Proof.
  induction tr as [|e tr IH]; intros w Ha Hm; cbn in *.
  - exact Ha.
  - apply andb_prop in Hm. destruct Hm as [He Hm].
    apply IH; [|exact Hm].
    destruct e as [i|n o|data].
    + rewrite local_step_ui. destruct (rendered i (local w)) eqn:Hr; [|exact Ha].
      apply handler_abs; auto.
      intros Ho. rewrite Ho in He. now apply Nat.eqb_eq.
    + rewrite local_step_env by discriminate. exact Ha.
    + exact Ha.
Qed.

Lemma run_from_app (tr1 tr2 : list Event) (w : World) :
  run_from w (tr1 ++ tr2) = run_from (run_from w tr1) tr2.
Proof. apply fold_left_app. Qed.


Lemma abs_open_count (s : State) :
  is_some (abs s) = true -> (open_count s <= 1)%nat.
Proof.
  unfold abs, open_count.
  destruct (Users.isOpen Detail s), (Users.isOpen ConfirmDelete s),
    (Users.isOpen Ban s), (Users.isOpen ChangeScope s); cbn; intros H;
    solve [ lia | discriminate ].
Qed.

Lemma run_modal (data : list User.t) (tr : list Event) :
  modal (mount data) tr = true ->
  is_some (abs (local (run data tr))) = true.
Proof. apply run_from_modal. reflexivity. Qed.

Lemma nth_error_last (A : Type) (l : list A) (x : A) :
  nth_error (l ++ [x]) (length l) = Some x.
Proof.
  rewrite nth_error_app2 by lia. now rewrite Nat.sub_diag.
Qed.

Lemma firstn_last (A : Type) (l : list A) (x : A) :
  firstn (length l) (l ++ [x]) = l.
Proof.
  rewrite firstn_app, Nat.sub_diag, firstn_all. cbn. apply app_nil_r.
Qed.

Lemma skipn_last (A : Type) (l : list A) (x : A) :
  skipn (S (length l)) (l ++ [x]) = [].
Proof.
  apply skipn_all2. rewrite length_app. cbn. lia.
Qed.

(** The completion of the request sent last runs its callback and leaves
    the other pending requests in place. *)
Lemma step_completed_last (w : World) (cb : Outcome -> list Action) (o : Outcome)
      (s : State) (l : list Action) :
  step (Completed (length (pending w)) o)
       {| local := s; users_data := users_data w; log := l;
          pending := pending w ++ [cb] |}
  = {| local := s; users_data := users_data w; log := l ++ cb o;
       pending := pending w ++ callbacks (cb o) |}.
Proof.
  unfold step, complete. cbn [pending local users_data log].
  rewrite nth_error_last, firstn_last, skipn_last. reflexivity.
Qed.

(** ** Mounting *)

(** C10: mounting the component dispatches the user-list request once and
    nothing else, with no user interaction involved: the log of a fresh
    mount is that single request, no request with a callback is pending,
    and the trace of events is still empty. *)
Theorem mount_dispatches_one_refresh (data : list User.t) :
  log (mount data) = [rest_users]
  /\ refreshes (log (mount data)) = 1%nat
  /\ pending (mount data) = []
  /\ run data [] = mount data
  /\ Users.componentDidMount Users.state = (Users.state, [rest_users], Ok tt).
Proof. repeat split. Qed.

(** C9: on mount the dialog state is closed.  The flags [dialogOpen],
    [deleteUserDialogOpen] and [banUserDialogOpen] are false; the key
    [scopeDialogOpen] is not in the initial object, so it is undefined and
    the scope dialog gets a falsy [isOpen] like the three others; the
    pending subject and scope are null and the ban form is empty. *)
Theorem initial_state_closed (data : list User.t) :
  let s := local (mount data) in
  dialogOpen s = false
  /\ deleteUserDialogOpen s = false
  /\ banUserDialogOpen s = false
  /\ scopeDialogOpen s = None
  /\ (forall d, Users.isOpen d s = false)
  /\ tempUserForDialogs s = None
  /\ scope s = None
  /\ banInfo s = {| reason := ""; expire := {| amount := ""; indicator := "" |} |}
  /\ abs s = Some DialogState.Closed.
Proof.
  cbn. repeat split. intros d. now destruct d.
Qed.

(** ** Banning *)

Lemma eqb_empty_false (x : string) : x <> "" -> (x =? "") = false.
Proof. intros H. now apply String.eqb_neq. Qed.

(** C3: submitting the ban dialog for a subject [U] sends one ban request
    for [U], whose body carries the text of the dialog as reason and an
    expiry token that is ["x"] when the amount or the unit of the form is
    empty and [amount:unit] otherwise; an empty form gives ["x"], and the
    amount ["5"] with the unit ["days"] gives ["5:days"]. *)
Theorem ban_expiry_token (s : State) (U : User.t) (value : string) :
  tempUserForDialogs s = Some U ->
  let a := amount (expire (banInfo s)) in
  let i := indicator (expire (banInfo s)) in
  exists token,
    emitted (Dialog_submit Ban value) s
    = [ rest_banUser (User.id U)
          (JSON_stringify (JObj [ ("reason", JStr value);
                                  ("expire", JStr token) ]))
          mapDispatchToProps.on_complete ]
    /\ (a = "" \/ i = "" -> token = "x")
    /\ (a <> "" -> i <> "" -> token = (a ++ ":" ++ i)%string)
    /\ (a = "" -> i = "" -> token = "x")
    /\ (a = "5" -> i = "days" -> token = "5:days").
Proof.
  intros HU a i.
  exists (if (a =? "") || (i =? "") then "x" else (a ++ ":" ++ i)%string).
  split.
  - unfold emitted, handler, Users.submit, bind, call, this_state, setState.
    cbn. rewrite HU. reflexivity.
  - repeat split.
    + intros [Ha | Hi].
      * now rewrite Ha.
      * rewrite Hi. cbn. now rewrite orb_true_r.
    + intros Ha Hi. now rewrite (eqb_empty_false Ha), (eqb_empty_false Hi).
    + intros Ha _. now rewrite Ha.
    + intros Ha Hi. now rewrite Ha, Hi.
Qed.

Lemma ban_expiry_token_witness :
  let s := local (run [user1; user2]
                    [ Ui (BanUser_onClick user1);
                      Ui (Expire_time_onChange "5");
                      Ui (Expire_indicator_onChange "days") ]) in
  tempUserForDialogs s = Some user1
  /\ exists token,
      emitted (Dialog_submit Ban "spam") s
      = [ rest_banUser 1
            (JSON_stringify (JObj [ ("reason", JStr "spam");
                                    ("expire", JStr token) ]))
            mapDispatchToProps.on_complete ]
      /\ token = "5:days".
Proof.
  cbv zeta. split; [reflexivity|].
  destruct (@ban_expiry_token
              (local (run [user1; user2]
                        [ Ui (BanUser_onClick user1);
                          Ui (Expire_time_onChange "5");
                          Ui (Expire_indicator_onChange "days") ]))
              user1 "spam" eq_refl) as [token [He [_ [_ [_ H5]]]]].
  exists token. split; [exact He|]. apply H5; reflexivity.
Defined.

(** C7: in a reachable state with no dialog open, the ban button of the
    row of [U] leads to the ban dialog for [U] with an empty reason, amount
    and unit, and dispatches nothing. *)
Theorem ban_click_opens_empty_form (data : list User.t) (tr : list Event) (U : User.t) :
  let s := local (run data tr) in
  open_count s = 0%nat ->
  let s' := next (BanUser_onClick U) s in
  abs s' = Some (DialogState.Ban U "" "" "")
  /\ Users.isOpen Ban s' = true
  /\ tempUserForDialogs s' = Some U
  /\ reason (banInfo s') = ""
  /\ amount (expire (banInfo s')) = ""
  /\ indicator (expire (banInfo s')) = ""
  /\ emitted (BanUser_onClick U) s = [].
Proof.
  intros s Hc. pose proof (run_inv data tr) as Hi. fold s in Hi.
  revert Hc Hi. generalize s. clear s. intros s.
  split_state s; run_handler; cbn.
  all: try (intros Hc; discriminate Hc).
  all: intros _.
  all: destruct (r =? "") eqn:Er; destruct (a =? "") eqn:Ea;
    destruct (i =? "") eqn:Ei; cbn; intros Hi; try discriminate Hi.
  all: apply String.eqb_eq in Er, Ea, Ei; subst; repeat split.
Qed.

Lemma ban_click_opens_empty_form_witness :
  let s := local (run [user1; user2]
                    [ Ui (BanUser_onClick user2);
                      Ui (Expire_time_onChange "3");
                      Ui (Dialog_close Ban) ]) in
  open_count s = 0%nat
  /\ abs (next (BanUser_onClick user1) s) = Some (DialogState.Ban user1 "" "" "").
Proof.
  cbv zeta. split; [reflexivity|].
  apply (@ban_click_opens_empty_form [user1; user2]
           [ Ui (BanUser_onClick user2);
             Ui (Expire_time_onChange "3");
             Ui (Dialog_close Ban) ] user1).
  reflexivity.
Defined.

(** ** Mutations and the refresh of the list *)

Lemma step_ui_rendered (i : Input) (w : World) :
  rendered i (local w) = true ->
  step (Ui i) w
  = {| local := next i (local w);
       users_data := users_data w;
       log := log w ++ emitted i (local w);
       pending := pending w ++ callbacks (emitted i (local w)) |}.
Proof.
  intros Hr. unfold step, next, emitted. rewrite Hr.
  now destruct (handler i (local w)) as [[s acts] r].
Qed.

Lemma refreshes_app (l1 l2 : list Action) :
  refreshes (l1 ++ l2) = (refreshes l1 + refreshes l2)%nat.
Proof.
  unfold refreshes. now rewrite filter_app, length_app.
Qed.

(** What a mutating handler that returns normally has dispatched: one
    request, which is not a refresh and carries [on_complete]. *)
Lemma mutating_emitted (i : Input) (s : State) :
  mutating i = true ->
  outcome i s = Ok tt ->
  exists a,
    emitted i s = [a]
    /\ is_refresh a = false
    /\ callback_of a = Some mapDispatchToProps.on_complete.
Proof.
  destruct i as [u v|u c|u|u|u|v|v|d v|d]; try discriminate.
  - intros _ _. eexists. repeat split.
  - destruct d; try discriminate; intros _;
      unfold outcome, emitted, handler, Users.submit, bind, call,
        this_state, setState; cbn;
      destruct (tempUserForDialogs s) as [U|]; cbn;
      try discriminate; intros _; eexists; repeat split.
Qed.

(** C4: a mutating control (the active switch, or the submit button of the
    delete, ban or scope dialog) whose handler sends its request
    dispatches that request alone, which is not a refresh; when the request
    completes, with either outcome, its callback dispatches the user-list
    request once and nothing else.  So the mutation adds one refresh to
    the log, and only through the completion callback. *)
Theorem mutation_refreshes_once (w : World) (i : Input) (o : Outcome) :
  mutating i = true ->
  rendered i (local w) = true ->
  outcome i (local w) = Ok tt ->
  let w1 := step (Ui i) w in
  let w2 := step (Completed (length (pending w)) o) w1 in
  exists a cb,
    callback_of a = Some cb
    /\ is_refresh a = false
    /\ cb o = [rest_users]
    /\ log w1 = log w ++ [a]
    /\ refreshes (log w1) = refreshes (log w)
    /\ log w2 = log w ++ [a; rest_users]
    /\ refreshes (log w2) = S (refreshes (log w))
    /\ pending w2 = pending w.
Proof.
  intros Hm Hr Ho w1 w2.
  destruct (mutating_emitted i (local w) Hm Ho) as [a [He [Ha Hcb]]].
  exists a, mapDispatchToProps.on_complete.
  assert (H1 : w1 = {| local := next i (local w);
                       users_data := users_data w;
                       log := log w ++ [a];
                       pending := pending w ++ [mapDispatchToProps.on_complete] |}).
  { unfold w1. rewrite (step_ui_rendered i w Hr), He.
    unfold callbacks. cbn. now rewrite Hcb. }
  assert (H2 : w2 = {| local := next i (local w);
                       users_data := users_data w;
                       log := (log w ++ [a]) ++ [rest_users];
                       pending := pending w ++ [] |}).
  { unfold w2. rewrite H1. apply step_completed_last. }
  rewrite H1, H2. cbn [log pending].
  repeat split; auto.
  - rewrite refreshes_app. unfold refreshes at 2. cbn. rewrite Ha. cbn. lia.
  - now rewrite <- app_assoc.
  - rewrite !refreshes_app. unfold refreshes at 2 3. cbn. rewrite Ha. cbn. lia.
  - apply app_nil_r.
Qed.

Lemma mutation_refreshes_once_witness :
  let w := run [user1; user2] [ Ui (DeleteUser_onClick user2) ] in
  let i := Dialog_submit ConfirmDelete "" in
  mutating i = true
  /\ rendered i (local w) = true
  /\ outcome i (local w) = Ok tt
  /\ exists a cb,
      callback_of a = Some cb
      /\ cb Failure = [rest_users]
      /\ log (step (Completed 0 Failure) (step (Ui i) w))
         = [rest_users; a; rest_users].
Proof.
  cbv zeta. repeat (split; [reflexivity|]).
  destruct (@mutation_refreshes_once
              (run [user1; user2] [ Ui (DeleteUser_onClick user2) ])
              (Dialog_submit ConfirmDelete "") Failure
              eq_refl eq_refl eq_refl)
    as [a [cb [Hcb [_ [Hrun [_ [_ [Hlog _]]]]]]]].
  exists a, cb. repeat split; assumption.
Defined.

(** C8: the active switch of the row of [U], reporting the value [v],
    sends one patch of [U] with the body [{active: v}] and changes neither
    the local state nor the user list; the completion of that request
    dispatches one refresh and still leaves the local state alone.  With
    the two users of the example, toggling the switch of user 1 logs the
    patch of user 1 with [{active: true}] and then a refresh, after the
    refresh of the mount. *)
Theorem active_switch_patches (w : World) (U : User.t) (v : bool) (o : Outcome) :
  let patch :=
    rest_userDetails_patch (User.id U)
      (JSON_stringify (JObj [ ("active", JBool v) ]))
      mapDispatchToProps.on_complete in
  let w1 := step (Ui (Active_onChange U v)) w in
  let w2 := step (Completed (length (pending w)) o) w1 in
  local w1 = local w
  /\ users_data w1 = users_data w
  /\ log w1 = log w ++ [patch]
  /\ local w2 = local w
  /\ users_data w2 = users_data w
  /\ log w2 = log w ++ [patch; rest_users]
  /\ pending w2 = pending w
  /\ log (run [user1; user2] [ Ui (active_toggle user1); Completed 0 Success ])
     = [ rest_users;
         rest_userDetails_patch 1
           (JSON_stringify (JObj [ ("active", JBool true) ]))
           mapDispatchToProps.on_complete;
         rest_users ].
Proof.
  intros patch w1 w2.
  assert (H1 : w1 = {| local := local w;
                       users_data := users_data w;
                       log := log w ++ [patch];
                       pending := pending w ++ [mapDispatchToProps.on_complete] |})
    by reflexivity.
  assert (H2 : w2 = {| local := local w;
                       users_data := users_data w;
                       log := (log w ++ [patch]) ++ [rest_users];
                       pending := pending w ++ [] |}).
  { unfold w2. rewrite H1. apply step_completed_last. }
  rewrite H1, H2. cbn [local users_data log pending].
  repeat split.
  - now rewrite <- app_assoc.
  - apply app_nil_r.
Qed.

(** ** One dialog at a time *)

(** A row control that opens a dialog raises the flag of that dialog and
    leaves the three other flags as they are. *)
Lemma open_keeps_others (i : Input) (d : Dialog) (s : State) :
  target i = Some d ->
  Users.isOpen d (next i s) = true
  /\ forall d', d' <> d -> Users.isOpen d' (next i s) = Users.isOpen d' s.
Proof.
  destruct i as [u v|u c|u|u|u|v|v|d0 v|d0]; try discriminate;
    intros Ht; injection Ht as <-; (split; [reflexivity|]);
    intros d' Hd; destruct d'; try reflexivity; now elim Hd.
Qed.

(** C1 does not hold of the code: two dialogs can be open together.  With the
    ban dialog open for user 1, the delete button of user 2 opens the
    delete dialog and the ban dialog stays open. *)
Lemma two_dialogs_open :
  let s := local (run [user1; user2]
                    [ Ui (BanUser_onClick user1); Ui (DeleteUser_onClick user2) ]) in
  banUserDialogOpen s = true
  /\ deleteUserDialogOpen s = true
  /\ open_count s = 2%nat.
Proof. repeat split. Qed.

(** C1, for one dialog at a time: a row control that opens a dialog sets
    the flag of its own dialog and leaves the other three flags unchanged,
    so it closes no dialog; and in every state reached with the row
    controls used only while no dialog is open, at most one dialog is
    open. *)
Theorem one_dialog_at_a_time (data : list User.t) (tr : list Event)
        (i : Input) (d : Dialog) :
  let s := local (run data tr) in
  (target i = Some d ->
   Users.isOpen d (next i s) = true
   /\ forall d', d' <> d -> Users.isOpen d' (next i s) = Users.isOpen d' s)
  /\ (modal (mount data) tr = true -> (open_count s <= 1)%nat).
Proof.
  intros s. split.
  - apply open_keeps_others.
  - intros Hm. apply abs_open_count. now apply run_modal.
Qed.

Lemma one_dialog_at_a_time_witness :
  let tr := [ Ui (BanUser_onClick user1); Ui (Dialog_close Ban);
              Ui (DeleteUser_onClick user2) ] in
  modal (mount [user1; user2]) tr = true
  /\ (open_count (local (run [user1; user2] tr)) <= 1)%nat.
Proof.
  cbv zeta. split; [reflexivity|].
  apply (proj2 (@one_dialog_at_a_time [user1; user2]
                  [ Ui (BanUser_onClick user1); Ui (Dialog_close Ban);
                    Ui (DeleteUser_onClick user2) ]
                  (BanUser_onClick user1) Ban)).
  reflexivity.
Defined.

(** ** The pending subject *)

(** In a state that stands for a variant, the subject is set exactly when
    the delete, ban or scope dialog is open. *)
Lemma abs_subject (s : State) :
  is_some (abs s) = true ->
  is_some (tempUserForDialogs s)
  = Users.isOpen ConfirmDelete s || Users.isOpen Ban s || Users.isOpen ChangeScope s.
Proof.
  split_state s; unfold abs; cbn; split_strings; cbn; intros H;
    solve [ reflexivity | discriminate ].
Qed.








(** ** Submitting and closing a dialog *)

(** Submitting the only open dialog, with its subject at hand, returns
    normally and leaves a closed and reset state. *)
Lemma submit_single (s : State) (d : Dialog) (value : string) :
  open_count s = 1%nat ->
  Users.isOpen d s = true ->
  inv s = true ->
  d = Detail \/ tempUserForDialogs s <> None ->
  outcome (Dialog_submit d value) s = Ok tt
  /\ is_closed (next (Dialog_submit d value) s)
  /\ (d = Detail -> emitted (Dialog_submit d value) s = [])
  /\ (d <> Detail ->
      exists a, emitted (Dialog_submit d value) s = [a] /\ is_mutation a = true).
Proof.
  destruct d; split_state s; run_handler; unfold is_closed;
    intros Hc; try discriminate Hc; intros Ho; try discriminate Ho;
    destruct (r =? "") eqn:Er; destruct (a =? "") eqn:Ea;
    destruct (i =? "") eqn:Ei; cbn; intros Hi; try discriminate Hi;
    intros [Hs|Hs]; try discriminate Hs; try (now elim Hs);
    empty_strings; cbn; closed_goal;
    try (intros H; now elim H); try (intros _; eexists; split; reflexivity).
Qed.

(** Closing a dialog returns normally, dispatches nothing, lowers the flag
    of that dialog only and resets the fields that the dialog uses. *)
Lemma close_fields (s : State) (d : Dialog) :
  let s' := next (Dialog_close d) s in
  outcome (Dialog_close d) s = Ok tt
  /\ emitted (Dialog_close d) s = []
  /\ Users.isOpen d s' = false
  /\ (forall d', d' <> d -> Users.isOpen d' s' = Users.isOpen d' s)
  /\ (d <> Detail -> tempUserForDialogs s' = None)
  /\ (d = Ban ->
      banInfo s' = {| reason := ""; expire := {| amount := ""; indicator := "" |} |})
  /\ (d = ChangeScope -> scope s' = None).
Proof.
  destruct d; cbn; repeat split; try discriminate;
    try (intros d' Hd; destruct d'; try reflexivity; now elim Hd);
    try (intros H; now elim H).
Qed.

(** Closing the only open dialog leaves a closed and reset state. *)
Lemma close_single (s : State) (d : Dialog) :
  open_count s = 1%nat ->
  Users.isOpen d s = true ->
  inv s = true ->
  is_closed (next (Dialog_close d) s).
Proof.
  destruct d; split_state s; run_handler; unfold is_closed;
    intros Hc; try discriminate Hc; intros Ho; try discriminate Ho;
    destruct (r =? "") eqn:Er; destruct (a =? "") eqn:Ea;
    destruct (i =? "") eqn:Ei; cbn; intros Hi; try discriminate Hi;
    empty_strings; cbn; closed_goal.
Qed.

(** C5: in a reachable state where one dialog is open, with its subject
    for the delete, ban and scope dialogs, the submit handler returns
    normally and leaves the local state closed, with the subject and the
    pending scope null and the ban form empty.  The delete, ban and scope
    dialogs dispatch their mutation in that same handler and the detail
    dialog dispatches nothing; the completion of any request, whatever
    its outcome, leaves the local state as the handler left it. *)
Theorem submit_closes_at_once (data : list User.t) (tr : list Event)
        (d : Dialog) (value : string) (n : nat) (o : Outcome) :
  let w := run data tr in
  let i := Dialog_submit d value in
  let w1 := step (Ui i) w in
  open_count (local w) = 1%nat ->
  Users.isOpen d (local w) = true ->
  d = Detail \/ tempUserForDialogs (local w) <> None ->
  outcome i (local w) = Ok tt
  /\ is_closed (local w1)
  /\ (d = Detail -> log w1 = log w)
  /\ (d <> Detail -> exists a, log w1 = log w ++ [a] /\ is_mutation a = true)
  /\ local (step (Completed n o) w1) = local w1.
Proof.
  intros w i w1 Hc Ho Hs.
  destruct (@submit_single (local w) d value Hc Ho (run_inv data tr) Hs)
    as [Hok [Hcl [Hdet Hmut]]].
  assert (Hr : rendered i (local w) = true) by exact Ho.
  assert (H1 : w1 = {| local := next i (local w);
                       users_data := users_data w;
                       log := log w ++ emitted i (local w);
                       pending := pending w ++ callbacks (emitted i (local w)) |})
    by exact (step_ui_rendered i w Hr).
  repeat split.
  - exact Hok.
  - rewrite H1; apply Hcl.
  - rewrite H1; apply Hcl.
  - rewrite H1; apply Hcl.
  - rewrite H1; apply Hcl.
  - intros Hd. rewrite H1. cbn [log]. unfold i. rewrite (Hdet Hd). apply app_nil_r.
  - intros Hd. destruct (Hmut Hd) as [a [Ha Hm]]. exists a.
    rewrite H1. cbn [log]. unfold i. now rewrite Ha.
  - apply local_step_env. discriminate.
Qed.

Lemma submit_closes_at_once_witness :
  let w := run [user1; user2] [ Ui (Scope_onChange user1 "admin") ] in
  let w1 := step (Ui (Dialog_submit ChangeScope "")) w in
  open_count (local w) = 1%nat
  /\ Users.isOpen ChangeScope (local w) = true
  /\ tempUserForDialogs (local w) <> None
  /\ is_closed (local w1)
  /\ local (step (Completed 0 Failure) w1) = local w1.
Proof.
  cbv zeta.
  assert (Hs : tempUserForDialogs
                 (local (run [user1; user2] [ Ui (Scope_onChange user1 "admin") ]))
               <> None) by discriminate.
  split; [reflexivity|]. split; [reflexivity|]. split; [exact Hs|].
  destruct (@submit_closes_at_once [user1; user2]
              [ Ui (Scope_onChange user1 "admin") ] ChangeScope "" 0 Failure
              eq_refl eq_refl (or_intror Hs))
    as [_ [Hcl [_ [_ Hloc]]]].
  split; assumption.
Defined.

(** The submit handlers read [user.id] of the subject: when another
    dialog has cleared it, the handler throws before it dispatches and the
    dialog stays open. *)
Lemma submit_without_subject_throws :
  let w := run [user1; user2]
             [ Ui (BanUser_onClick user1); Ui (DeleteUser_onClick user2);
               Ui (Dialog_close ConfirmDelete) ] in
  open_count (local w) = 1%nat
  /\ Users.isOpen Ban (local w) = true
  /\ tempUserForDialogs (local w) = None
  /\ outcome (Dialog_submit Ban "spam") (local w) = Throw TypeError
  /\ emitted (Dialog_submit Ban "spam") (local w) = []
  /\ Users.isOpen Ban (next (Dialog_submit Ban "spam") (local w)) = true.
Proof. repeat split. Qed.

(** C6: closing an open dialog lowers its flag and no other, resets the
    fields that the dialog uses (subject, reason, amount and unit for the
    ban dialog; subject and pending scope for the scope dialog; subject
    for the delete dialog), dispatches nothing and leaves the user list as
    it is; when the dialog was the only one open, the local state is
    closed and reset afterwards. *)
Theorem close_discards (data : list User.t) (tr : list Event) (d : Dialog) :
  let w := run data tr in
  let w1 := step (Ui (Dialog_close d)) w in
  Users.isOpen d (local w) = true ->
  outcome (Dialog_close d) (local w) = Ok tt
  /\ Users.isOpen d (local w1) = false
  /\ (forall d', d' <> d -> Users.isOpen d' (local w1) = Users.isOpen d' (local w))
  /\ (d <> Detail -> tempUserForDialogs (local w1) = None)
  /\ (d = Ban ->
      banInfo (local w1)
      = {| reason := ""; expire := {| amount := ""; indicator := "" |} |})
  /\ (d = ChangeScope -> scope (local w1) = None)
  /\ log w1 = log w
  /\ pending w1 = pending w
  /\ users_data w1 = users_data w
  /\ (open_count (local w) = 1%nat -> is_closed (local w1)).
Proof.
  intros w w1 Ho.
  assert (Hr : rendered (Dialog_close d) (local w) = true) by exact Ho.
  assert (H1 : w1 = {| local := next (Dialog_close d) (local w);
                       users_data := users_data w;
                       log := log w ++ emitted (Dialog_close d) (local w);
                       pending := pending w
                                  ++ callbacks (emitted (Dialog_close d) (local w)) |})
    by exact (step_ui_rendered (Dialog_close d) w Hr).
  destruct (close_fields (local w) d)
    as [Hok [Hem [Hfl [Hoth [Hsub [Hban Hsc]]]]]].
  rewrite H1. cbn [local log pending users_data]. rewrite Hem. cbn [callbacks flat_map].
  rewrite !app_nil_r.
  repeat split; auto.
  - apply close_single; auto. apply run_inv.
  - apply close_single; auto. apply run_inv.
  - apply close_single; auto. apply run_inv.
  - apply close_single; auto. apply run_inv.
Qed.

Lemma close_discards_witness :
  let w := run [user1; user2]
             [ Ui (BanUser_onClick user1); Ui (Expire_time_onChange "5");
               Ui (Expire_indicator_onChange "days") ] in
  let w1 := step (Ui (Dialog_close Ban)) w in
  Users.isOpen Ban (local w) = true
  /\ open_count (local w) = 1%nat
  /\ is_closed (local w1)
  /\ log w1 = log w
  /\ users_data w1 = users_data w.
Proof.
  cbv zeta. split; [reflexivity|]. split; [reflexivity|].
  destruct (@close_discards [user1; user2]
              [ Ui (BanUser_onClick user1); Ui (Expire_time_onChange "5");
                Ui (Expire_indicator_onChange "days") ] Ban eq_refl)
    as [_ [_ [_ [_ [_ [_ [Hlog [_ [Hus Hcl]]]]]]]]].
  split; [apply Hcl; reflexivity|]. split; assumption.
Defined.

(** ** More on the local state *)

Lemma is_default_eq (b : BanInfo) :
  is_default b = true ->
  b = {| reason := ""; expire := {| amount := ""; indicator := "" |} |}.
Proof.
  destruct b as [r [a i]]. unfold is_default. cbn.
  intros H. apply andb_prop in H. destruct H as [H Hi].
  apply andb_prop in H. destruct H as [Hr Ha].
  apply String.eqb_eq in Hr, Ha, Hi. now subst.
Qed.

(** X1: after any sequence of events, a non-null pending subject means
    that the delete, ban or scope dialog is open, a non-null pending scope
    means that the scope dialog is open, and a ban form that is not empty
    means that the ban dialog is open. *)
Theorem leftovers_belong_to_open_dialog (data : list User.t) (tr : list Event) :
  let s := local (run data tr) in
  (tempUserForDialogs s <> None ->
   Users.isOpen ConfirmDelete s = true \/ Users.isOpen Ban s = true
   \/ Users.isOpen ChangeScope s = true)
  /\ (scope s <> None -> Users.isOpen ChangeScope s = true)
  /\ (banInfo s <> {| reason := ""; expire := {| amount := ""; indicator := "" |} |} ->
      Users.isOpen Ban s = true).
Proof.
  intros s. pose proof (run_inv data tr) as Hi. fold s in Hi.
  unfold inv in Hi.
  apply andb_prop in Hi. destruct Hi as [Hi Hb].
  apply andb_prop in Hi. destruct Hi as [Ht Hs].
  repeat split.
  - intros Hn. destruct (tempUserForDialogs s); [|now elim Hn].
    cbn [is_some implb] in Ht.
    apply orb_prop in Ht. destruct Ht as [Ht|Ht]; [|now auto].
    apply orb_prop in Ht. destruct Ht; now auto.
  - intros Hn. destruct (scope s); [exact Hs | now elim Hn].
  - intros Hn. destruct (is_default (banInfo s)) eqn:Hd.
    + elim Hn. now apply is_default_eq.
    + exact Hb.
Qed.

(** The flag of the scope dialog becomes defined by the scope selector
    and by nothing else. *)
Lemma handler_scope_flag (i : Input) (s : State) :
  rendered i s = true ->
  is_some (scopeDialogOpen (next i s))
  = is_some (scopeDialogOpen s) || is_scope_selection (Ui i).
Proof.
  destruct i as [u v|u c|u|u|u|v|v|d v|d]; try destruct d;
    destruct s as [dO dU bU oS [[|]|] [?|] sc b]; cbn;
    intros Hr; solve [ reflexivity | discriminate ].
Qed.

Lemma step_scope_flag (e : Event) (w : World) :
  is_some (scopeDialogOpen (local (step e w)))
  = is_some (scopeDialogOpen (local w)) || is_scope_selection e.
Proof.
  destruct e as [i|n o|data].
  - rewrite local_step_ui. destruct (rendered i (local w)) eqn:Hr.
    + now apply handler_scope_flag.
    + destruct i; try (now rewrite orb_false_r); discriminate.
  - rewrite local_step_env by discriminate. cbn. now rewrite orb_false_r.
  - cbn. now rewrite orb_false_r.
Qed.

Lemma run_from_scope_flag (tr : list Event) :
  forall w,
    is_some (scopeDialogOpen (local (run_from w tr)))
    = is_some (scopeDialogOpen (local w)) || existsb is_scope_selection tr.
Proof.
  induction tr as [|e tr IH]; intros w; cbn.
  - now rewrite orb_false_r.
  - fold (run_from (step e w) tr). rewrite IH, step_scope_flag. now rewrite orb_assoc.
Qed.

(** X2: [scopeDialogOpen], which the initial state does not declare, is
    undefined exactly as long as no scope selector has been used. *)
Theorem scope_flag_undefined_until_selection (data : list User.t) (tr : list Event) :
  scopeDialogOpen (local (run data tr)) = None
  <-> existsb is_scope_selection tr = false.
Proof.
  pose proof (run_from_scope_flag tr (mount data)) as H.
  fold (run data tr) in H. cbn in H.
  destruct (scopeDialogOpen (local (run data tr))); cbn in H; rewrite <- H;
    split; intros; solve [ reflexivity | discriminate ].
Qed.

(** ** Submitting without a subject *)

(** X3: with a null subject, the submit handler of the delete, ban or
    scope dialog throws a [TypeError] before it dispatches anything; no
    dialog is closed, the subject, the pending scope and the expiry fields
    stay as they are, and the ban dialog has already stored the text of
    its field as reason. *)
Theorem submit_without_subject (s : State) (d : Dialog) (value : string) :
  tempUserForDialogs s = None ->
  d <> Detail ->
  let s' := next (Dialog_submit d value) s in
  outcome (Dialog_submit d value) s = Throw TypeError
  /\ emitted (Dialog_submit d value) s = []
  /\ (forall d', Users.isOpen d' s' = Users.isOpen d' s)
  /\ tempUserForDialogs s' = None
  /\ scope s' = scope s
  /\ expire (banInfo s') = expire (banInfo s)
  /\ reason (banInfo s')
     = match d with
       | Ban => value
       | _ => reason (banInfo s)
       end.
Proof.
  intros Hs Hd.
  destruct d; try (now elim Hd);
    unfold next, emitted, outcome, handler, Users.submit, bind, call,
      this_state, setState; cbn; rewrite Hs; cbn; repeat split;
    try assumption; intros d'; now destruct d'.
Qed.

Lemma submit_without_subject_witness :
  let s := local (run [user1; user2]
                    [ Ui (Scope_onChange user1 "admin");
                      Ui (DeleteUser_onClick user2);
                      Ui (Dialog_close ConfirmDelete) ]) in
  tempUserForDialogs s = None
  /\ Users.isOpen ChangeScope s = true
  /\ outcome (Dialog_submit ChangeScope "") s = Throw TypeError
  /\ Users.isOpen ChangeScope (next (Dialog_submit ChangeScope "") s) = true.
Proof.
  cbv zeta.
  assert (Hd : ChangeScope <> Detail) by discriminate.
  split; [reflexivity|]. split; [reflexivity|].
  destruct (@submit_without_subject
              (local (run [user1; user2]
                        [ Ui (Scope_onChange user1 "admin");
                          Ui (DeleteUser_onClick user2);
                          Ui (Dialog_close ConfirmDelete) ]))
              ChangeScope "" eq_refl Hd) as [Ho [_ [Hf _]]].
  split; [exact Ho|]. now rewrite Hf.
Defined.

(** A handler throws only in the submit of the delete, ban or scope dialog
    on a null subject. *)
Lemma handler_throws (i : Input) (s : State) (e : Exn) :
  outcome i s = Throw e ->
  e = TypeError
  /\ tempUserForDialogs s = None
  /\ exists d value, i = Dialog_submit d value /\ d <> Detail.
Proof.
  destruct e.
  destruct i as [u v|u c|u|u|u|v|v|d v|d]; try discriminate;
    try (destruct d; discriminate).
  destruct d; try discriminate;
    unfold outcome, handler, Users.submit, bind, call, this_state, setState;
    cbn; destruct (tempUserForDialogs s) eqn:Hs; cbn; try discriminate;
    intros _; (split; [reflexivity|]); (split; [reflexivity|]);
    eexists; eexists; (split; [reflexivity|discriminate]).
Qed.

(** X4: the only exception a handler of the component raises is the
    [TypeError] of a submit of the delete, ban or scope dialog on a null
    subject. *)
Theorem throws_only_without_subject (i : Input) (s : State) (e : Exn) :
  outcome i s = Throw e ->
  e = TypeError
  /\ tempUserForDialogs s = None
  /\ exists d value, i = Dialog_submit d value /\ d <> Detail.
Proof. apply handler_throws. Qed.

Lemma throws_only_without_subject_witness :
  let s := local (run [user1; user2]
                    [ Ui (BanUser_onClick user1);
                      Ui (DeleteUser_onClick user2);
                      Ui (Dialog_close ConfirmDelete) ]) in
  outcome (Dialog_submit Ban "spam") s = Throw TypeError
  /\ tempUserForDialogs s = None.
Proof.
  cbv zeta. split; [reflexivity|].
  apply (@throws_only_without_subject (Dialog_submit Ban "spam")
           (local (run [user1; user2]
                     [ Ui (BanUser_onClick user1);
                       Ui (DeleteUser_onClick user2);
                       Ui (Dialog_close ConfirmDelete) ]))
           TypeError eq_refl).
Defined.

(** In a state that stands for a variant, an open delete, ban or scope
    dialog has its subject. *)
Lemma abs_has_subject (s : State) (d : Dialog) :
  is_some (abs s) = true ->
  Users.isOpen d s = true ->
  d <> Detail ->
  tempUserForDialogs s <> None.
Proof.
  intros Ha Ho Hd. pose proof (abs_subject s Ha) as Hs.
  destruct (tempUserForDialogs s); [discriminate|].
  cbn [is_some] in Hs. symmetry in Hs.
  apply orb_false_elim in Hs. destruct Hs as [Hs H3].
  apply orb_false_elim in Hs. destruct Hs as [H1 H2].
  destruct d; solve [ now elim Hd | congruence ].
Qed.

(** X5: with one dialog at a time, no control that is on screen makes its
    handler throw. *)
Theorem no_throw_one_dialog_at_a_time (data : list User.t) (tr : list Event)
        (i : Input) :
  modal (mount data) tr = true ->
  rendered i (local (run data tr)) = true ->
  outcome i (local (run data tr)) = Ok tt.
Proof.
  intros Hm Hr. pose proof (run_modal data tr Hm) as Ha.
  destruct (outcome i (local (run data tr))) as [[]|e] eqn:Ho; [reflexivity|].
  destruct (@handler_throws i (local (run data tr)) e Ho)
    as [_ [Hs [d [v [Hi Hd]]]]].
  subst i. elim (@abs_has_subject (local (run data tr)) d Ha Hr Hd). exact Hs.
Qed.

Lemma no_throw_one_dialog_at_a_time_witness :
  let tr := [ Ui (BanUser_onClick user1); Ui (Expire_time_onChange "5") ] in
  modal (mount [user1; user2]) tr = true
  /\ rendered (Dialog_submit Ban "spam") (local (run [user1; user2] tr)) = true
  /\ outcome (Dialog_submit Ban "spam") (local (run [user1; user2] tr)) = Ok tt.
Proof.
  cbv zeta. split; [reflexivity|]. split; [reflexivity|].
  apply (@no_throw_one_dialog_at_a_time [user1; user2]
           [ Ui (BanUser_onClick user1); Ui (Expire_time_onChange "5") ]
           (Dialog_submit Ban "spam") eq_refl eq_refl).
Defined.

(** X6: the subject is shared by the delete, ban and scope dialogs.  Once
    a row has opened one of them for [U], in any state, the subject is [U]
    and the submit of any of the three sends its mutation for the id of
    [U], whichever user the submitted dialog was opened for. *)
Theorem submit_targets_last_opened (s : State) (i : Input) (U : User.t)
        (d : Dialog) (value : string) :
  subject_of i = Some U ->
  d <> Detail ->
  tempUserForDialogs (next i s) = Some U
  /\ exists a,
      emitted (Dialog_submit d value) (next i s) = [a]
      /\ is_mutation a = true
      /\ userId_of a = Some (User.id U).
Proof.
  intros Hi Hd.
  destruct i as [u v|u c|u|u|u|v|v|d0 v|d0]; try discriminate;
    injection Hi as ->; (split; [reflexivity|]);
    destruct d; try (now elim Hd); eexists; repeat split.
Qed.

Lemma submit_targets_last_opened_witness :
  let s := next (DeleteUser_onClick user1) Users.state in
  subject_of (BanUser_onClick user2) = Some user2
  /\ ConfirmDelete <> Detail
  /\ exists a,
      emitted (Dialog_submit ConfirmDelete "") (next (BanUser_onClick user2) s) = [a]
      /\ is_mutation a = true
      /\ userId_of a = Some 2%Z.
Proof.
  cbv zeta.
  assert (Hd : ConfirmDelete <> Detail) by discriminate.
  split; [reflexivity|]. split; [exact Hd|].
  apply (@submit_targets_last_opened
           (next (DeleteUser_onClick user1) Users.state)
           (BanUser_onClick user2) user2 ConfirmDelete "" eq_refl Hd).
Defined.

(** ** The ban form *)

(** X7: the two inputs of the ban form are independent.  The last amount
    typed wins, amount and unit can be set in either order, the reason is
    kept, and an edit touches no flag, no subject and dispatches
    nothing. *)
Theorem ban_form_edits (s : State) (a a' i : string) :
  let amt := Expire_time_onChange in
  let ind := Expire_indicator_onChange in
  next (amt a') (next (amt a) s) = next (amt a') s
  /\ next (ind i) (next (amt a) s) = next (amt a) (next (ind i) s)
  /\ banInfo (next (ind i) (next (amt a) s))
     = {| reason := reason (banInfo s);
          expire := {| amount := a; indicator := i |} |}
  /\ (forall d, Users.isOpen d (next (amt a) s) = Users.isOpen d s)
  /\ (forall d, Users.isOpen d (next (ind i) s) = Users.isOpen d s)
  /\ tempUserForDialogs (next (amt a) s) = tempUserForDialogs s
  /\ tempUserForDialogs (next (ind i) s) = tempUserForDialogs s
  /\ emitted (amt a) s = []
  /\ emitted (ind i) s = [].
Proof.
  destruct s as [dO dU bU oS sD tU sc [r [a0 i0]]]. cbn.
  repeat split; intros d; now destruct d.
Qed.

(** ** From a click to the refresh *)

Lemma step_ui_quiet (i : Input) (w : World) :
  rendered i (local w) = true ->
  emitted i (local w) = [] ->
  step (Ui i) w
  = {| local := next i (local w);
       users_data := users_data w;
       log := log w;
       pending := pending w |}.
Proof.
  intros Hr He. rewrite (step_ui_rendered i w Hr), He. cbn.
  now rewrite !app_nil_r.
Qed.

Lemma step_ui_request (i : Input) (w : World) (a : Action)
      (cb : Outcome -> list Action) :
  rendered i (local w) = true ->
  emitted i (local w) = [a] ->
  callback_of a = Some cb ->
  step (Ui i) w
  = {| local := next i (local w);
       users_data := users_data w;
       log := log w ++ [a];
       pending := pending w ++ [cb] |}.
Proof.
  intros Hr He Hc. rewrite (step_ui_rendered i w Hr), He.
  unfold callbacks. cbn. now rewrite Hc.
Qed.

(** X8: from any world, choosing [v] in the scope selector of the row of
    [U], confirming, and the completion of the request log one patch of
    [U] with the body [{scope: v}] followed by one refresh; the dialog is
    closed and subject and pending scope are null. *)
Theorem scope_change_flow (w : World) (U : User.t) (v value : string)
        (o : Outcome) :
  let w' := run_from w [ Ui (Scope_onChange U v);
                         Ui (Dialog_submit ChangeScope value);
                         Completed (length (pending w)) o ] in
  log w'
  = log w ++ [ rest_userDetails_patch (User.id U)
                 (JSON_stringify (JObj [ ("scope", JStr v) ]))
                 mapDispatchToProps.on_complete;
               rest_users ]
  /\ pending w' = pending w
  /\ Users.isOpen ChangeScope (local w') = false
  /\ tempUserForDialogs (local w') = None
  /\ scope (local w') = None.
Proof.
  intros w'. unfold w', run_from. cbn [fold_left].
  rewrite (@step_ui_quiet (Scope_onChange U v)) by reflexivity.
  erewrite (@step_ui_request (Dialog_submit ChangeScope value)); [| reflexivity ..].
  cbn [local users_data log pending].
  rewrite step_completed_last. cbn. rewrite <- app_assoc, app_nil_r.
  repeat split.
Qed.

(** X9: from any world, the delete button of the row of [U], the
    confirmation and the completion of the request log one delete of [U]
    followed by one refresh; the dialog is closed and the subject null. *)
Theorem delete_flow (w : World) (U : User.t) (value : string) (o : Outcome) :
  let w' := run_from w [ Ui (DeleteUser_onClick U);
                         Ui (Dialog_submit ConfirmDelete value);
                         Completed (length (pending w)) o ] in
  log w'
  = log w ++ [ rest_userDetails_delete (User.id U) mapDispatchToProps.on_complete;
               rest_users ]
  /\ pending w' = pending w
  /\ Users.isOpen ConfirmDelete (local w') = false
  /\ tempUserForDialogs (local w') = None.
Proof.
  intros w'. unfold w', run_from. cbn [fold_left].
  rewrite (@step_ui_quiet (DeleteUser_onClick U)) by reflexivity.
  erewrite (@step_ui_request (Dialog_submit ConfirmDelete value)); [| reflexivity ..].
  cbn [local users_data log pending].
  rewrite step_completed_last. cbn. rewrite <- app_assoc, app_nil_r.
  repeat split.
Qed.

(** X10: from any world, the ban button of the row of [U], an amount, a
    unit, the submit with a reason and the completion of the request log
    one ban of [U] with that reason and the expiry of that amount and unit,
    followed by one refresh, whatever the form held before; the dialog is
    closed and the form is empty again. *)
Theorem ban_flow (w : World) (U : User.t) (a i r : string) (o : Outcome) :
  let w' := run_from w [ Ui (BanUser_onClick U);
                         Ui (Expire_time_onChange a);
                         Ui (Expire_indicator_onChange i);
                         Ui (Dialog_submit Ban r);
                         Completed (length (pending w)) o ] in
  log w'
  = log w
    ++ [ rest_banUser (User.id U)
           (JSON_stringify
              (JObj [ ("reason", JStr r);
                      ("expire",
                        JStr (if (a =? "") || (i =? "") then "x"
                              else (a ++ ":" ++ i)%string)) ]))
           mapDispatchToProps.on_complete;
         rest_users ]
  /\ pending w' = pending w
  /\ Users.isOpen Ban (local w') = false
  /\ tempUserForDialogs (local w') = None
  /\ banInfo (local w')
     = {| reason := ""; expire := {| amount := ""; indicator := "" |} |}.
Proof.
  intros w'. unfold w', run_from. cbn [fold_left].
  rewrite (@step_ui_quiet (BanUser_onClick U)) by reflexivity.
  rewrite (@step_ui_quiet (Expire_time_onChange a)) by reflexivity.
  rewrite (@step_ui_quiet (Expire_indicator_onChange i)) by reflexivity.
  erewrite (@step_ui_request (Dialog_submit Ban r)); [| reflexivity ..].
  cbn [local users_data log pending].
  rewrite step_completed_last. cbn. rewrite <- app_assoc, app_nil_r.
  repeat split.
Qed.

(** ** Opening and cancelling *)

Lemma opener_rendered (d : Dialog) (U : User.t) (v : string) (s : State) :
  rendered (opener d U v) s = true
  /\ rendered (Dialog_close d) (next (opener d U v) s) = true.
Proof. destruct d; split; reflexivity. Qed.

Lemma open_close_state (s : State) (d : Dialog) (U : User.t) (v : string) :
  open_count s = 0%nat ->
  inv s = true ->
  next (Dialog_close d) (next (opener d U v) s)
  = match d with
    | ChangeScope => assign (Set_scopeDialogOpen false) s
    | _ => s
    end.
Proof.
  destruct d; split_state s; run_handler;
    intros Hc; try discriminate Hc;
    destruct (r =? "") eqn:Er; destruct (a =? "") eqn:Ea;
    destruct (i =? "") eqn:Ei; cbn; intros Hi; try discriminate Hi;
    empty_strings; reflexivity.
Qed.

(** X11: in a reachable world with no dialog open, opening a dialog from
    a row and closing it gives back the local state as it was, except that
    the scope dialog leaves its flag defined ([false]); nothing is
    dispatched but the details request of the details button, and the user
    list and the pending requests are untouched. *)
Theorem open_then_close_restores (data : list User.t) (tr : list Event)
        (d : Dialog) (U : User.t) (v : string) :
  let w := run data tr in
  let w' := run data (tr ++ [ Ui (opener d U v); Ui (Dialog_close d) ]) in
  open_count (local w) = 0%nat ->
  local w' = match d with
             | ChangeScope => assign (Set_scopeDialogOpen false) (local w)
             | _ => local w
             end
  /\ (forall d', Users.isOpen d' (local w') = false)
  /\ users_data w' = users_data w
  /\ log w' = log w ++ match d with
                       | Detail => [ rest_userDetails (User.id U) ]
                       | _ => []
                       end
  /\ pending w' = pending w.
Proof.
  intros w w' Hc.
  assert (Hw : w' = step (Ui (Dialog_close d)) (step (Ui (opener d U v)) w)).
  { unfold w', w, run. now rewrite run_from_app. }
  destruct (opener_rendered d U v (local w)) as [Ho Hcl].
  assert (H1 : step (Ui (opener d U v)) w
               = {| local := next (opener d U v) (local w);
                    users_data := users_data w;
                    log := log w ++ emitted (opener d U v) (local w);
                    pending := pending w
                               ++ callbacks (emitted (opener d U v) (local w)) |})
    by exact (step_ui_rendered (opener d U v) w Ho).
  rewrite H1 in Hw.
  rewrite step_ui_rendered in Hw by exact Hcl.
  cbn [local users_data log pending] in Hw.
  pose proof (@open_close_state (local w) d U v Hc (run_inv data tr)) as Hs.
  rewrite Hw. cbn [local users_data log pending]. rewrite Hs.
  assert (Hz : forall d', Users.isOpen d' (local w) = false).
  { intros d'. unfold open_count in Hc.
    destruct d'; destruct (Users.isOpen Detail (local w)),
      (Users.isOpen ConfirmDelete (local w)), (Users.isOpen Ban (local w)),
      (Users.isOpen ChangeScope (local w)); solve [ reflexivity | discriminate ]. }
  destruct d; cbn; rewrite ?app_nil_r; repeat split; try exact Hz;
    intros d'; specialize (Hz d'); now destruct d'.
Qed.

Lemma open_then_close_restores_witness :
  let tr := [ Ui (BanUser_onClick user1); Ui (Dialog_close Ban) ] in
  let w := run [user1; user2] tr in
  let w' := run [user1; user2]
              (tr ++ [ Ui (opener ConfirmDelete user2 ""); Ui (Dialog_close ConfirmDelete) ]) in
  open_count (local w) = 0%nat
  /\ local w' = local w
  /\ log w' = log w ++ [].
Proof.
  cbv zeta. split; [reflexivity|].
  destruct (@open_then_close_restores [user1; user2]
              [ Ui (BanUser_onClick user1); Ui (Dialog_close Ban) ]
              ConfirmDelete user2 "" eq_refl) as [Hl [_ [_ [Hg _]]]].
  split; assumption.
Defined.

(** ** The body of a ban request *)

Lemma colon_append_inj (a : string) :
  forall a' u u',
    colon_free a = true ->
    colon_free a' = true ->
    (a ++ ":" ++ u)%string = (a' ++ ":" ++ u')%string ->
    a = a' /\ u = u'.
Proof.
  induction a as [|c a IH]; intros a' u u' Ha Ha' He; destruct a' as [|c' a'];
    cbn in *.
  - injection He as ->. now split.
  - injection He as <- _. discriminate Ha'.
  - injection He as -> _. discriminate Ha.
  - injection He as -> He.
    apply andb_prop in Ha, Ha'. destruct Ha as [_ Ha]. destruct Ha' as [_ Ha'].
    destruct (IH a' u u' Ha Ha' He) as [-> ->]. now split.
Qed.

Lemma colon_append_not_x (a u : string) :
  a <> "" -> (a ++ ":" ++ u)%string <> "x".
Proof.
  intros Ha He. destruct a as [|c a]; [now elim Ha|].
  cbn in He. injection He as _ He. destruct a; discriminate He.
Qed.

(** X12: when the amounts hold no colon, two ban forms give the same
    request for a user only if they have the same reason and either both
    lack an amount or a unit (token ["x"]) or have the same amount and
    unit. *)
Theorem ban_request_determines_form (U : User.t) (b b' : BanInfo) :
  colon_free (amount (expire b)) = true ->
  colon_free (amount (expire b')) = true ->
  mapDispatchToProps.banUser (Some U) b = mapDispatchToProps.banUser (Some U) b' ->
  reason b = reason b'
  /\ (((amount (expire b) = "" \/ indicator (expire b) = "")
       /\ (amount (expire b') = "" \/ indicator (expire b') = ""))
      \/ expire b = expire b').
Proof.
  destruct b as [r [a i]], b' as [r' [a' i']]. cbn.
  intros Hc Hc' He.
  unfold mapDispatchToProps.banUser, bindM, get_id, retM, dispatch in He.
  cbn in He. injection He as Hr Ht. split; [exact Hr|].
  destruct (String.eqb_spec a ""), (String.eqb_spec i ""),
    (String.eqb_spec a' ""), (String.eqb_spec i' ""); cbn in Ht.
  all: try (left; split;
            [ (left; assumption) || (right; assumption)
            | (left; assumption) || (right; assumption) ]).
  all: try (exfalso; eapply colon_append_not_x; [| exact Ht]; assumption).
  all: try (exfalso; eapply colon_append_not_x; [| symmetry; exact Ht]; assumption).
  right. destruct (colon_append_inj a a' i i' Hc Hc' Ht) as [-> ->]. reflexivity.
Qed.

Lemma ban_request_determines_form_witness :
  let b := {| reason := "spam"; expire := {| amount := "5"; indicator := "days" |} |} in
  colon_free (amount (expire b)) = true
  /\ reason b = reason b
  /\ (((amount (expire b) = "" \/ indicator (expire b) = "")
       /\ (amount (expire b) = "" \/ indicator (expire b) = ""))
      \/ expire b = expire b).
Proof.
  cbv zeta. split; [reflexivity|].
  apply (@ban_request_determines_form user1
           {| reason := "spam"; expire := {| amount := "5"; indicator := "days" |} |}
           {| reason := "spam"; expire := {| amount := "5"; indicator := "days" |} |}
           eq_refl eq_refl eq_refl).
Defined.

(** ** What is dispatched *)

(** A handler dispatches nothing, or the details request of its row, or
    one mutation carrying [on_complete]. *)
Lemma emitted_shape (i : Input) (s : State) :
  emitted i s = []
  \/ (exists U, i = ShowUserDetails_onClick U
                /\ emitted i s = [ rest_userDetails (User.id U) ])
  \/ (exists a, mutating i = true
                /\ emitted i s = [a]
                /\ is_refresh a = false
                /\ callback_of a = Some mapDispatchToProps.on_complete).
Proof.
  destruct i as [u v|u c|u|u|u|v|v|d v|d]; try (now left).
  - right; right. eexists. repeat split.
  - right; left. exists u. split; reflexivity.
  - destruct d; try (now left);
      unfold emitted, handler, Users.submit, bind, call, this_state, setState;
      cbn; destruct (tempUserForDialogs s); cbn; try (now left);
      right; right; eexists; repeat split.
  - destruct d; now left.
Qed.

(** X13: a handler of the component dispatches at most one action and
    never the user-list request; what it dispatches is the details request
    of the details button or a mutation whose callback is [on_complete]. *)
Theorem handlers_dispatch_at_most_one (i : Input) (s : State) :
  (List.length (emitted i s) <= 1)%nat
  /\ refreshes (emitted i s) = 0%nat
  /\ (forall a, In a (emitted i s) ->
        (exists U, i = ShowUserDetails_onClick U /\ a = rest_userDetails (User.id U))
        \/ (mutating i = true
            /\ callback_of a = Some mapDispatchToProps.on_complete)).
Proof.
  destruct (emitted_shape i s) as [He|[[U [Hi He]]|[a [Hm [He [Hr Hc]]]]]];
    rewrite He.
  - repeat split; cbn; auto. intros a [].
  - repeat split; cbn; auto. intros a [<-|[]]. left. now exists U.
  - repeat split; cbn; auto.
    + unfold refreshes. cbn. now rewrite Hr.
    + intros a' [<-|[]]. right. now split.
Qed.

Lemma mutations_app (l1 l2 : list Action) :
  mutations (l1 ++ l2) = (mutations l1 + mutations l2)%nat.
Proof. unfold mutations. now rewrite filter_app, length_app. Qed.

Lemma is_mutation_callback (a : Action) (cb : Outcome -> list Action) :
  callback_of a = Some cb -> is_mutation a = true.
Proof. unfold is_mutation. now intros ->. Qed.

Lemma complete_accounted (n : nat) (o : Outcome) (w : World) :
  accounted w -> accounted (complete n o w).
Proof.
  intros [Hp Hn]. unfold complete.
  destruct (nth_error (pending w) n) as [cb|] eqn:Hcb; [|now split].
  destruct (nth_error_split _ _ Hcb) as [l1 [l2 [Hl Hlen]]].
  rewrite Hl in Hp, Hn |- *.
  assert (Hcbo : cb o = [rest_users]).
  { rewrite Forall_forall in Hp. apply Hp. apply in_or_app. right. now left. }
  rewrite Hcbo. unfold accounted. cbn [pending log].
  rewrite <- Hlen.
  rewrite firstn_app, Nat.sub_diag, firstn_all. cbn [firstn].
  replace (S (length l1)) with (length (l1 ++ [cb])) by (rewrite length_app; cbn; lia).
  replace (l1 ++ cb :: l2) with ((l1 ++ [cb]) ++ l2) by now rewrite <- app_assoc.
  rewrite skipn_app, Nat.sub_diag, skipn_all. cbn [skipn callbacks flat_map callback_of app].
  rewrite !app_nil_r. split.
  - apply Forall_app in Hp. destruct Hp as [H1 H2].
    apply Forall_app. split; [exact H1|]. now inversion H2.
  - rewrite refreshes_app, mutations_app. rewrite !length_app in *.
    unfold refreshes at 2. unfold mutations at 2. cbn in *. lia.
Qed.

Lemma step_accounted (e : Event) (w : World) :
  accounted w -> accounted (step e w).
Proof.
  intros Hw. destruct e as [i|n o|data].
  - destruct (rendered i (local w)) eqn:Hr;
      [|unfold step; rewrite Hr; exact Hw].
    rewrite (step_ui_rendered i w Hr).
    destruct Hw as [Hp Hn]. unfold accounted. cbn [pending log].
    destruct (emitted_shape i (local w)) as [He|[[U [Hi He]]|[a [Hm [He [Hrf Hc]]]]]];
      rewrite He; unfold callbacks; cbn [flat_map callback_of app].
    + rewrite !app_nil_r. now split.
    + rewrite app_nil_r. split; [exact Hp|].
      rewrite refreshes_app, mutations_app. unfold refreshes at 2.
      unfold mutations at 2. cbn. lia.
    + rewrite Hc. cbn [app]. split.
      * apply Forall_app. split; [exact Hp|]. constructor; [|constructor].
        intros o. reflexivity.
      * rewrite refreshes_app, mutations_app, length_app.
        unfold refreshes at 2. unfold mutations at 2. cbn.
        rewrite Hrf, (is_mutation_callback a Hc). cbn. lia.
  - now apply complete_accounted.
  - exact Hw.
Qed.

Lemma run_from_accounted (tr : list Event) :
  forall w, accounted w -> accounted (run_from w tr).
Proof.
  induction tr as [|e tr IH]; intros w Hw; cbn.
  - exact Hw.
  - apply IH. now apply step_accounted.
Qed.

(** X14: in every reachable world, the user-list requests of the log and
    the pending requests together number one more than the mutations of
    the log: each refresh is that of the mount or that of a completed
    mutation, and every pending callback dispatches exactly one. *)
Theorem refreshes_follow_mutations (data : list User.t) (tr : list Event) :
  let w := run data tr in
  (refreshes (log w) + List.length (pending w) = 1 + mutations (log w))%nat
  /\ (refreshes (log w) <= 1 + mutations (log w))%nat
  /\ (forall cb o, In cb (pending w) -> cb o = [rest_users]).
Proof.
  intros w.
  assert (Hw : accounted w).
  { apply run_from_accounted. split; [constructor | reflexivity]. }
  destruct Hw as [Hp Hn]. repeat split.
  - exact Hn.
  - lia.
  - intros cb o Hin. rewrite Forall_forall in Hp. now apply Hp.
Qed.
